(** * jenkins-job-manager: the command line front end and the
      reconciliation engine it drives

    [Module Cli] embeds [src/jenkins_job_manager/cli.py]: each command is a
    program over the calls it makes to its collaborators (the
    [JenkinsJobManager] object and the [click] console), run against an
    arbitrary handler that answers those calls and may raise.

    [Module Core] holds the reconciliation engine
    ([jenkins_job_manager.core]), which is imported by [cli.py] but whose
    source is not part of the files at hand; its definitions follow the
    written specification and say so. *)

From Stdlib Require Import List String Ascii ZArith Bool Arith Lia DecimalString.
Import ListNotations.
Local Open Scope string_scope.

(** The newline character of Python's ["\n"]. *)
Definition nl : string := String "010"%char EmptyString.

(** ** click's text styling

    [click.style(text, fg=..., bold=...)] wraps the text in ANSI escape
    sequences and resets the style at the end. *)
Module Click.

Inductive color := green | red | white.

Definition esc : string := String "027"%char "[".

Definition fg_code (c : color) : string :=
  match c with
  | red => "31"
  | green => "32"
  | white => "37"
  end.

Definition reset : string := esc ++ "0m".

Definition style (text : string) (fg : option color) (bold : bool) : string :=
  (match fg with Some c => esc ++ fg_code c ++ "m" | None => "" end)
  ++ (if bold then esc ++ "1m" else "")
  ++ text ++ reset.

End Click.

(** [str.startswith] for a one-character prefix. *)
Definition startswith (line : string) (c : ascii) : bool :=
  match line with
  | String a _ => Ascii.eqb a c
  | EmptyString => false
  end.

(** Python's [str(n)] for a non-negative integer (used by an f-string). *)
Definition str_of_nat (n : nat) : string :=
  NilEmpty.string_of_uint (Nat.to_uint n).

Module Cli.

(** What a command can raise: [click.exceptions.Exit(code)], [click.Abort]
    (raised by [click.confirm(..., abort=True)] on a negative answer), or
    any other exception coming out of a collaborator. *)
Inductive exn :=
| Exit (code : Z)
| Abort
| Uncaught (what : string).

Definition click_exceptions_Exit (code : Z) : exn := Exit code.

Section Commands.

(** [apply_plan()] returns a pair whose first component [cli.py] binds to
    [changecounts] and never inspects; its type is left open. *)
Context {ChangeCounts : Type}.

(** The calls [cli.py] makes to its collaborators, indexed by the type of
    the answer. The first group are the attributes and methods of the
    [JenkinsJobManager] object and of its [config]; the second group is the
    console. *)
Inductive Op : Type -> Type :=
| check_authentication : Op bool
| gather : Op unit
| detected_changes : Op bool
| plan_report : Op (list string)
| apply_plan : Op (ChangeCounts * string)
| import_missing : Op (list string)
| generate_jjb_xml : Op unit
| config_str : Op string
| config_url : Op string
| config_username : Op string
| config_password : Op string
| config_set_auth (username password : string) : Op unit
| config_user_conf_path : Op string
| config_update_user_conf_auth (username password : string) : Op unit
| log_debug (username password : string) : Op unit
| click_echo (message : string) (newline : bool) : Op unit
| click_echo_via_pager (lines : list string) : Op unit
| click_prompt (text : string) (hide_input : bool) : Op string
| click_ask_yes_no (text : string) : Op bool.

(** A command: it returns, raises, or calls a collaborator and goes on with
    the answer. *)
Inductive Prog (A : Type) : Type :=
| Ret (a : A)
| Raise (e : exn)
| Call {X : Type} (op : Op X) (k : X -> Prog A).

#[global] Arguments Ret {A} a.
#[global] Arguments Raise {A} e.
#[global] Arguments Call {A X} op k.

Fixpoint bind {A B : Type} (p : Prog A) (f : A -> Prog B) : Prog B :=
  match p with
  | Ret a => f a
  | Raise e => Raise e
  | Call op k => Call op (fun x => bind (k x) f)
  end.

Definition call {X : Type} (op : Op X) : Prog X := Call op Ret.

Notation "x <- p ;; q" := (bind p (fun x => q))
  (at level 61, p at next level, right associativity).
Notation "p ;; q" := (bind p (fun _ => q))
  (at level 61, right associativity).

(** [for x in l: body(x)] *)
Fixpoint for_each {X : Type} (l : list X) (body : X -> Prog unit) : Prog unit :=
  match l with
  | [] => Ret tt
  | x :: l' => body x ;; for_each l' body
  end.

(** [click.echo(message)], [click.secho(message, fg=...)] (style, then
    echo) and [click.confirm(text, abort=True)]. *)
Definition echo (message : string) : Prog unit :=
  call (click_echo message true).

Definition secho (message : string) (fg : Click.color) : Prog unit :=
  call (click_echo (Click.style message (Some fg) false) true).

Definition confirm (text : string) (abort : bool) : Prog bool :=
  rv <- call (click_ask_yes_no text) ;;
  if abort && negb rv then Raise Abort else Ret rv.

(** Python truth value of a string. *)
Definition truthy (s : string) : bool :=
  match s with EmptyString => false | _ => true end.

(** *** [jjm_login] *)
Definition jjm_login : Prog unit :=
  jurl <- call config_url ;;
  username <- call config_username ;;
  password <- call config_password ;;
  (if truthy username && truthy password then
     secho "Auth already configured for this jenkins!" Click.red ;;
     jconf <- call config_str ;;
     secho jconf Click.white ;;
     confirm "overwrite?" true ;;
     Ret tt
   else Ret tt) ;;
  secho "Configuring login info for:" Click.green ;;
  secho (String "009"%char jurl) Click.white ;;
  call (click_echo (Click.style (nl ++ "Enter username, go to " ++ jurl ++ "/whoAmI/ if unsure.")
                                None false) true) ;;
  username <- call (click_prompt "username" false) ;;
  call (click_echo (Click.style (nl ++ "Enter api key. go to " ++ jurl ++ "/user/" ++ username
                                    ++ "/configure to make a new one.") None false) true) ;;
  password <- call (click_prompt "api key" true) ;;
  call (log_debug username password) ;;
  call (config_set_auth username password) ;;
  ok <- call check_authentication ;;
  if ok then
    path <- call config_user_conf_path ;;
    secho ("Success! Saving to " ++ path) Click.green ;;
    call (config_update_user_conf_auth username password)
  else
    secho "Bad Authentication, try again." Click.red ;;
    Raise (click_exceptions_Exit 2).

(** *** [jjm_check] *)
Definition jjm_check : Prog unit :=
  call generate_jjb_xml.

(** *** [check_auth] *)
Definition check_auth : Prog unit :=
  ok <- call check_authentication ;;
  if negb ok then
    conf <- call config_str ;;
    secho ("Bad login detected for " ++ conf) Click.red ;;
    echo "Try the login subcommand" ;;
    Raise (click_exceptions_Exit 1)
  else Ret tt.

(** *** [handle_plan_report] and its local [output_format] *)
Definition output_format (line : string) : string :=
  if startswith line "+" then Click.style line (Some Click.green) false
  else if startswith line "-" then Click.style line (Some Click.red) false
  else line.

Definition handle_plan_report (use_pager : bool) : Prog bool :=
  detected <- call detected_changes ;;
  if detected then
    report <- call plan_report ;;
    let gen_lines := map output_format report in
    (if use_pager then call (click_echo_via_pager gen_lines)
     else for_each gen_lines (fun line => call (click_echo line false))) ;;
    Ret true
  else
    secho "No changes." Click.green ;;
    Ret false.

(** *** [jjm_plan]

    On the branch where changes were reported the source evaluates the
    expression [click.exceptions.Exit(2)] as a statement: the exception
    object is built and dropped, there is no [raise]. *)
Definition jjm_plan : Prog unit :=
  check_auth ;;
  call gather ;;
  changes <- handle_plan_report true ;;
  if changes then
    let _ := click_exceptions_Exit 2 in Ret tt
  else Ret tt.

(** *** [jjm_apply] *)
Definition jjm_apply : Prog unit :=
  check_auth ;;
  call gather ;;
  detected <- call detected_changes ;;
  if negb detected then
    secho "No changes to apply." Click.green ;;
    Ret tt
  else
    handle_plan_report false ;;
    confirm (Click.style "Apply changes?" None true) true ;;
    result <- call apply_plan ;;
    let '(changecounts, msg) := result in
    echo msg.

(** *** [jjm_import] *)
Definition jjm_import : Prog unit :=
  check_auth ;;
  call gather ;;
  missing <- call import_missing ;;
  secho ("Imported " ++ str_of_nat (List.length missing) ++ " jobs.") Click.green.

(** The sub-commands registered on the [jjm] group. *)
Inductive Command := Login | Check | Plan | Apply | Import.

Definition command (c : Command) : Prog unit :=
  match c with
  | Login => jjm_login
  | Check => jjm_check
  | Plan => jjm_plan
  | Apply => jjm_apply
  | Import => jjm_import
  end.

(** ** Running a command

    A handler answers each call from a world [W] (the server, the local
    files, the user at the terminal): it returns an answer or raises, and
    moves the world on. A run yields the outcome, the final world and the
    trace of calls made, each with what came back. *)
Inductive Event :=
| Called {X : Type} (op : Op X) (answer : exn + X).

Record Run (W A : Type) := mkRun {
  outcome : exn + A;
  final : W;
  trace : list Event
}.

#[global] Arguments mkRun {W A}.
#[global] Arguments outcome {W A}.
#[global] Arguments final {W A}.
#[global] Arguments trace {W A}.

Section Handler.

Variable W : Type.
Variable handle : forall X : Type, Op X -> W -> (exn + X) * W.

Fixpoint run {A : Type} (p : Prog A) (w : W) : Run W A :=
  match p with
  | Ret a => mkRun (inr a) w []
  | Raise e => mkRun (inl e) w []
  | Call op k =>
      let '(answer, w') := handle _ op w in
      match answer with
      | inl e => mkRun (inl e) w' [Called op (inl e)]
      | inr x =>
          let r := run (k x) w' in
          mkRun (outcome r) (final r) (Called op (inr x) :: trace r)
      end
  end.

End Handler.

(** *** Reading a trace *)

(** The call was answered [inr true]. *)
Definition answered (b : bool) {X : Type} (op : Op X) : exn + X -> bool :=
  match op in Op X return exn + X -> bool with
  | check_authentication | detected_changes | click_ask_yes_no _ =>
      fun a => match a with inr b' => Bool.eqb b b' | inl _ => false end
  | _ => fun _ => false
  end.

(** [check_authentication()] returned [True]. *)
Definition authenticated (ev : Event) : bool :=
  match ev with
  | Called op a =>
      match op with check_authentication => answered true op a | _ => false end
  end.

(** [detected_changes()] returned [b]. *)
Definition changes_answer (b : bool) (ev : Event) : bool :=
  match ev with
  | Called op a =>
      match op with detected_changes => answered b op a | _ => false end
  end.

(** The user answered the yes/no prompt with [b]. *)
Definition user_answer (b : bool) (ev : Event) : bool :=
  match ev with
  | Called op a =>
      match op with click_ask_yes_no _ => answered b op a | _ => false end
  end.

(** The calls that make up reconciliation: gathering state and everything
    that works on the gathered state. *)
Definition reconciles (ev : Event) : bool :=
  match ev with
  | Called op _ =>
      match op with
      | gather | detected_changes | plan_report | apply_plan | import_missing => true
      | _ => false
      end
  end.

Definition gathers (ev : Event) : bool :=
  match ev with
  | Called op _ => match op with gather => true | _ => false end
  end.

(** The one call of [cli.py] that changes jobs on the server. *)
Definition mutates (ev : Event) : bool :=
  match ev with
  | Called op _ => match op with apply_plan => true | _ => false end
  end.

(** The collaborator answered (it did not raise). *)
Definition returned (ev : Event) : bool :=
  match ev with
  | Called _ (inr _) => true
  | Called _ (inl _) => false
  end.

(** Every [q] event of the trace comes after some [p] event ([seen] says
    whether a [p] event happened before the trace starts). *)
Fixpoint preceded_by (p q : Event -> bool) (seen : bool) (tr : list Event) : bool :=
  match tr with
  | [] => true
  | ev :: tr' =>
      (if q ev then seen else true) && preceded_by p q (seen || p ev) tr'
  end.

(** The answer of the first [detected_changes()] call of the trace. *)
Fixpoint first_changes_answer (tr : list Event) : option bool :=
  match tr with
  | [] => None
  | ev :: tr' =>
      if changes_answer true ev then Some true
      else if changes_answer false ev then Some false
      else first_changes_answer tr'
  end.

(** The process exit status click's [main] (standalone mode) gives a
    command: 0 when the callback returns, the code of an [Exit], 1 after
    [Abort], and 1 when another exception escapes the interpreter. *)
Definition exit_status {A : Type} (o : exn + A) : Z :=
  match o with
  | inr _ => 0
  | inl (Exit code) => code
  | inl Abort => 1
  | inl (Uncaught _) => 1
  end%Z.

End Commands.

(** ** A scripted collaborator

    A concrete handler for running the commands: the manager answers from a
    fixed scenario and the world is the text that reached the terminal. *)
Record Scenario := {
  login_ok : bool;
  fetch_error : option exn;
  changed : bool;
  report : list string;
  says_yes : bool
}.

Definition scripted (s : Scenario) (X : Type) (op : @Op nat X) (term : list string)
  : (exn + X) * list string :=
  match op in Op X return (exn + X) * list string with
  | check_authentication => (inr (login_ok s), term)
  | gather => (match fetch_error s with Some e => inl e | None => inr tt end, term)
  | detected_changes => (inr (changed s), term)
  | plan_report => (inr (report s), term)
  | apply_plan => (inr (List.length (report s), "applied"), term)
  | import_missing => (inr [], term)
  | generate_jjb_xml => (inr tt, term)
  | config_str => (inr "https://jenkins.example/", term)
  | config_url => (inr "https://jenkins.example/", term)
  | config_username => (inr "", term)
  | config_password => (inr "", term)
  | config_set_auth _ _ => (inr tt, term)
  | config_user_conf_path => (inr "jjm.ini", term)
  | config_update_user_conf_auth _ _ => (inr tt, term)
  | log_debug _ _ => (inr tt, term)
  | click_echo m n => (inr tt, (term ++ [if n then (m ++ nl)%string else m])%list)
  | click_echo_via_pager ls => (inr tt, (term ++ ls)%list)
  | click_prompt _ _ => (inr "operator", term)
  | click_ask_yes_no _ => (inr (says_yes s), term)
  end.

Definition bad_login : Scenario :=
  {| login_ok := false; fetch_error := None; changed := true;
     report := ["create jobB"; "+<b/>"]; says_yes := true |}.

Definition pending_changes : Scenario :=
  {| login_ok := true; fetch_error := None; changed := true;
     report := ["create jobB"; "+<b/>"]; says_yes := true |}.

Definition in_sync : Scenario :=
  {| login_ok := true; fetch_error := None; changed := false;
     report := []; says_yes := true |}.

Definition operator_declines : Scenario :=
  {| login_ok := true; fetch_error := None; changed := true;
     report := ["delete jobC"; "-<c/>"]; says_yes := false |}.

End Cli.

(** * The reconciliation engine *)
Module Core.

(** ** Data model *)

Definition JobName := string.

(** Modelled from the spec: [JobDefinition] of [jenkins_job_manager.core],
    "{ name: JobName, canonicalXML: string }". *)
Record JobDefinition := {
  jd_name : JobName;
  canonicalXML : string
}.

(** Modelled from the spec: [RemoteJob], "{ name: JobName, liveXML: string }". *)
Record RemoteJob := {
  rj_name : JobName;
  liveXML : string
}.

(** Modelled from the spec: [ChangeKind], "enumerated variant
    {Create, Update, Delete, Noop}". *)
Inductive ChangeKind := Create | Update | Delete | Noop.

(** Modelled from the spec: [Change], "{ name, kind, desired: optional
    canonicalXML, observed: optional liveXML, diffLines: ordered sequence of
    annotated text lines }". *)
Record Change := {
  name : JobName;
  kind : ChangeKind;
  desired : option string;
  observed : option string;
  diffLines : list string
}.

(** Modelled from the spec: [Plan], "ordered sequence of Change, plus
    aggregate counts (creates, updates, deletes) and a hasChanges boolean". *)
Record Plan := {
  changes : list Change;
  creates : nat;
  updates : nat;
  deletes : nat;
  hasChanges : bool
}.

(** Modelled from the spec: "RemoteError{status, message}". *)
Record RemoteError := {
  status : Z;
  message : string
}.

(** Modelled from the spec: the errors a gather can end in (section 7):
    a [ConfigurationError] names the offending job, a remote failure carries
    the [RemoteError]. *)
Inductive Error :=
| ConfigurationError (job : JobName)
| RemoteFailure (e : RemoteError).

(** Modelled from the spec: [ApplyResult], "{ attempted: int, succeeded:
    int, failed: ordered sequence of (JobName, error) }". *)
Record ApplyResult := {
  attempted : nat;
  succeeded : nat;
  failed : list (JobName * RemoteError)
}.

Definition kind_eqb (a b : ChangeKind) : bool :=
  match a, b with
  | Create, Create | Update, Update | Delete, Delete | Noop, Noop => true
  | _, _ => false
  end.

(** ** The ordered mapping keyed by job name

    Modelled from the spec: the "explicit ordered mapping type keyed by
    JobName with documented insertion-order-preserving iteration" of
    section 9 (a Python [dict]): a key keeps the place of its first
    insertion and the value of its last. *)
Section OrderedMap.

Context {V : Type}.

Fixpoint om_lookup (k : JobName) (m : list (JobName * V)) : option V :=
  match m with
  | [] => None
  | (k', v) :: m' => if String.eqb k k' then Some v else om_lookup k m'
  end.

Fixpoint om_insert (k : JobName) (v : V) (m : list (JobName * V)) : list (JobName * V) :=
  match m with
  | [] => [(k, v)]
  | (k', v') :: m' =>
      if String.eqb k k' then (k, v) :: m' else (k', v') :: om_insert k v m'
  end.

Definition om_mem (k : JobName) (m : list (JobName * V)) : bool :=
  match om_lookup k m with Some _ => true | None => false end.

Definition om_keys (m : list (JobName * V)) : list JobName := map fst m.

Definition om_values (m : list (JobName * V)) : list V := map snd m.

(** Step 1 of the detector: "Build a mapping from JobName to ..." *)
Definition index_by (key : V -> JobName) (l : list V) : list (JobName * V) :=
  fold_left (fun m x => om_insert (key x) x m) l [].

End OrderedMap.

(** ** Line-level diff *)

(** Modelled from the spec: the text lines of an XML body (the unit of the
    "line-level diff"); a newline ends a line. *)
Fixpoint lines (s : string) : list string :=
  match s with
  | EmptyString => []
  | String c s' =>
      if Ascii.eqb c "010" then "" :: lines s'
      else match lines s' with
           | [] => [String c ""]
           | l :: ls => String c l :: ls
           end
  end.

(** Modelled from the spec: the three kinds of diff line of section 4.2,
    "+ for an added line (present only in desired), - for a removed line
    (present only in observed), ' ' (context) otherwise". *)
Inductive LineTag := Added | Removed | Unchanged.

Definition marker (t : LineTag) : ascii :=
  match t with
  | Added => "+"
  | Removed => "-"
  | Unchanged => " "
  end%char.

Definition annotate (e : LineTag * string) : string :=
  String (marker (fst e)) (snd e).

Definition edits (script : list (LineTag * string)) : nat :=
  List.length (filter (fun e => match fst e with Unchanged => false | _ => true end) script).

(** Modelled from the spec: "a line-level diff of the two normalized
    texts". The spec fixes no algorithm; this is the edit script that keeps
    a longest common subsequence of lines as context, removing the other
    lines of [old] and adding the other lines of [new]. *)
Fixpoint line_diff (old : list string) : list string -> list (LineTag * string) :=
  match old with
  | [] => fun new => map (pair Added) new
  | x :: old' =>
      fix against (new : list string) : list (LineTag * string) :=
        match new with
        | [] => map (pair Removed) (x :: old')
        | y :: new' =>
            if String.eqb x y then (Unchanged, x) :: line_diff old' new'
            else
              let drop := (Removed, x) :: line_diff old' (y :: new') in
              let take := (Added, y) :: against new' in
              if Nat.leb (edits drop) (edits take) then drop else take
        end
  end.

(** The entries of an edit script that are lines of the old text (removed
    or context), and those that are lines of the new text (added or
    context). *)
Definition in_old (e : LineTag * string) : bool :=
  match fst e with Added => false | _ => true end.

Definition in_new (e : LineTag * string) : bool :=
  match fst e with Removed => false | _ => true end.

(** The annotated diff lines that turn the text [have] into [want]. *)
Definition diff_text (have want : string) : list string :=
  map annotate (line_diff (lines have) (lines want)).

(** ** Change Detector *)

(** First error wins, as in a loop that raises. *)
Fixpoint collect {A B : Type} (f : A -> Error + B) (l : list A) : Error + list B :=
  match l with
  | [] => inr []
  | x :: l' =>
      match f x with
      | inl e => inl e
      | inr y =>
          match collect f l' with
          | inl e => inl e
          | inr ys => inr (y :: ys)
          end
      end
  end.

Definition count_kind (k : ChangeKind) (cs : list Change) : nat :=
  List.length (filter (fun c => kind_eqb (kind c) k) cs).

(** Modelled from the spec: the aggregate fields of a [Plan]; step 5,
    "hasChanges = true iff any Change has kind in {Create, Update, Delete}". *)
Definition make_plan (cs : list Change) : Plan :=
  {| changes := cs;
     creates := count_kind Create cs;
     updates := count_kind Update cs;
     deletes := count_kind Delete cs;
     hasChanges := existsb (fun c => negb (kind_eqb (kind c) Noop)) cs |}.

(** The job name has a local definition; it has a job on the server. *)
Definition declared (n : JobName) (D : list JobDefinition) : bool :=
  existsb (fun d => String.eqb (jd_name d) n) D.

Definition present (n : JobName) (Obs : list RemoteJob) : bool :=
  existsb (fun r => String.eqb (rj_name r) n) Obs.

(** How many changes of kind [k] a list of changes holds for job [n]. *)
Definition count_for (k : ChangeKind) (n : JobName) (cs : list Change) : nat :=
  List.length (filter (fun c => kind_eqb (kind c) k && String.eqb (name c) n) cs).

Section Detector.

(** The external canonicalization function, "canonicalize(xml) -> xml,
    fails with ConfigurationError on malformed input" ([None] is the
    failure), and the flag that exempts a remote job from deletion because
    it was never under management (section 4.1, step 4). *)
Variable canonicalize : string -> option string.
Variable unmanaged_exempt : JobName -> bool.

(** Modelled from the spec: step 2, "Change{kind=Create, desired=XML,
    observed=none}"; its diff lines are those of the desired text against
    nothing. *)
Definition create_change (d : JobDefinition) : Change :=
  {| name := jd_name d;
     kind := Create;
     desired := Some (canonicalXML d);
     observed := None;
     diffLines := diff_text "" (canonicalXML d) |}.

(** Modelled from the spec: step 4, a [Delete] for a job only observed. *)
Definition delete_change (r : RemoteJob) : Change :=
  {| name := rj_name r;
     kind := Delete;
     desired := None;
     observed := Some (liveXML r);
     diffLines := diff_text (liveXML r) "" |}.

(** Modelled from the spec: step 3, the normalized comparison of a job
    present on both sides, and the failure rule of section 4.1. *)
Definition compare_change (d : JobDefinition) (r : RemoteJob) : Error + Change :=
  match canonicalize (canonicalXML d), canonicalize (liveXML r) with
  | Some want, Some have =>
      inr {| name := jd_name d;
             kind := if String.eqb want have then Noop else Update;
             desired := Some (canonicalXML d);
             observed := Some (liveXML r);
             diffLines := if String.eqb want have then [] else diff_text have want |}
  | _, _ => inl (ConfigurationError (jd_name d))
  end.

Definition desired_change (have : list (JobName * RemoteJob)) (d : JobDefinition)
  : Error + Change :=
  match om_lookup (jd_name d) have with
  | None => inr (create_change d)
  | Some r => compare_change d r
  end.

(** A remote job is proposed for deletion when it has no local definition
    and is not exempt. *)
Definition deletable (want : list (JobName * JobDefinition)) (r : RemoteJob) : bool :=
  negb (om_mem (rj_name r) want) && negb (unmanaged_exempt (rj_name r)).

(** Modelled from the spec: [detect] of section 4.1, steps 1 to 6. *)
Definition detect (D : list JobDefinition) (Obs : list RemoteJob) : Error + Plan :=
  let want := index_by jd_name D in
  let have := index_by rj_name Obs in
  match collect (desired_change have) (om_values want) with
  | inl e => inl e
  | inr ups =>
      inr (make_plan (ups ++ map delete_change (filter (deletable want) (om_values have))))
  end.

End Detector.

(** ** Plan Renderer *)

Definition kind_label (k : ChangeKind) : string :=
  match k with
  | Create => "create"
  | Update => "update"
  | Delete => "delete"
  | Noop => "noop"
  end.

(** Modelled from the spec: "a header line identifying the job and change
    kind". *)
Definition header (c : Change) : string :=
  kind_label (kind c) ++ " " ++ name c.

Definition render_change (c : Change) : list string :=
  match kind c with
  | Noop => []
  | _ => header c :: diffLines c
  end.

(** Modelled from the spec: [render] of section 4.2. *)
Definition render (p : Plan) : list string :=
  flat_map render_change (changes p).

(** ** Plan Applier and gather *)
Section Remote.

(** The remote server and its calls (section 6): each mutation moves the
    server on and may fail with a [RemoteError]. *)
Variable Server : Type.
Variable createOrReplace : JobName -> string -> Server -> Server * option RemoteError.
Variable delete : JobName -> Server -> Server * option RemoteError.
Variable listJobs : Server -> RemoteError + list RemoteJob.

(** The remote call of one step of the plan, if the change has one. *)
Definition remote_call (c : Change) (s : Server) : option (Server * option RemoteError) :=
  match kind c with
  | Create | Update =>
      match desired c with
      | Some xml => Some (createOrReplace (name c) xml s)
      | None => None
      end
  | Delete => Some (delete (name c) s)
  | Noop => None
  end.

Definition record_outcome (c : Change) (err : option RemoteError) (acc : ApplyResult)
  : ApplyResult :=
  match err with
  | None =>
      {| attempted := S (attempted acc);
         succeeded := S (succeeded acc);
         failed := failed acc |}
  | Some e =>
      {| attempted := S (attempted acc);
         succeeded := succeeded acc;
         failed := failed acc ++ [(name c, e)] |}
  end.

Fixpoint apply_changes (cs : list Change) (acc : ApplyResult) (s : Server)
  : ApplyResult * Server :=
  match cs with
  | [] => (acc, s)
  | c :: cs' =>
      match remote_call c s with
      | None => apply_changes cs' acc s
      | Some (s', err) => apply_changes cs' (record_outcome c err acc) s'
      end
  end.

(** Modelled from the spec: [apply] of section 4.3; the steps run in plan
    order and each outcome is recorded on its own. *)
Definition apply (p : Plan) (s : Server) : ApplyResult * Server :=
  apply_changes (changes p) {| attempted := 0; succeeded := 0; failed := [] |} s.

Variable canonicalize : string -> option string.
Variable unmanaged_exempt : JobName -> bool.

(** Modelled from the spec: [gather], which polls the two collaborators
    once and feeds the Change Detector (section 2, control flow). *)
Definition gather (D : list JobDefinition) (s : Server) : Error + Plan :=
  match listJobs s with
  | inl e => inl (RemoteFailure e)
  | inr Obs => detect canonicalize unmanaged_exempt D Obs
  end.

End Remote.

End Core.

(** * Facts about the command line front end *)
Module CliFacts.
Import Cli.

Section Traces.

Context {ChangeCounts : Type}.
Local Abbreviation Event := (@Cli.Event ChangeCounts).

Lemma preceded_by_seen (p q : Event -> bool) (tr : list Event) :
  preceded_by p q true tr = true.
Proof.
  induction tr as [|ev tr IH]; simpl; [reflexivity|].
  rewrite IH. destruct (q ev); reflexivity.
Qed.

Lemma preceded_by_app (p q : Event -> bool) (t1 t2 : list Event) (seen : bool) :
  preceded_by p q seen (t1 ++ t2)
  = preceded_by p q seen t1 && preceded_by p q (seen || existsb p t1) t2.
Proof.
  revert seen. induction t1 as [|ev t1 IH]; intros seen; simpl.
  - now rewrite orb_false_r.
  - rewrite IH, andb_assoc, orb_assoc. reflexivity.
Qed.

Lemma preceded_by_absent (p q : Event -> bool) (tr : list Event) (seen : bool) :
  existsb q tr = false -> preceded_by p q seen tr = true.
Proof.
  revert seen. induction tr as [|ev tr IH]; intros seen; simpl; [reflexivity|].
  intros H. apply orb_false_iff in H as [Hq Htr].
  rewrite Hq, IH by assumption. reflexivity.
Qed.

End Traces.

Section Runs.

Context {ChangeCounts : Type}.
Variable W : Type.
Variable handle : forall X : Type, @Op ChangeCounts X -> W -> (exn + X) * W.

Local Abbreviation run := (Cli.run W handle).

(** Running [p] and then [f] is running [p], and [f] from where [p] ended. *)
Lemma run_bind {A B : Type} (p : Prog A) (f : A -> Prog B) (w : W) :
  run (bind p f) w
  = match outcome (run p w) with
    | inl e => mkRun (inl e) (final (run p w)) (trace (run p w))
    | inr a =>
        let r := run (f a) (final (run p w)) in
        mkRun (outcome r) (final r) (trace (run p w) ++ trace r)
    end.
Proof.
  revert w. induction p as [a|e|X op k IH]; intros w; simpl.
  - destruct (run (f a) w); reflexivity.
  - reflexivity.
  - destruct (handle X op w) as [[e|x] w']; simpl; [reflexivity|].
    rewrite IH. destruct (outcome (run (k x) w')); reflexivity.
Qed.

(** One call at the head of a command, by what the handler does with it. *)
Lemma run_Call_raises {A X : Type} (op : Op X) (k : X -> Prog A) (w w' : W) (e : exn) :
  handle X op w = (inl e, w') ->
  run (Call op k) w = mkRun (inl e) w' [Called op (inl e)].
Proof. intros H. simpl. now rewrite H. Qed.

Lemma run_Call_returns {A X : Type} (op : Op X) (k : X -> Prog A) (w w' : W) (x : X) :
  handle X op w = (inr x, w') ->
  run (Call op k) w
  = mkRun (outcome (run (k x) w')) (final (run (k x) w'))
          (Called op (inr x) :: trace (run (k x) w')).
Proof. intros H. simpl. now rewrite H. Qed.

(** The loop that prints the report lines calls nothing but [click.echo]. *)
Definition prints (ev : @Event ChangeCounts) : bool :=
  match ev with
  | Called op _ => match op with click_echo _ _ => true | _ => false end
  end.

Lemma echo_loop_prints (ls : list string) (w : W) :
  forallb prints
    (trace (run (for_each ls (fun line => Call (click_echo line false) Ret)) w)) = true.
Proof.
  revert w. induction ls as [|l ls IH]; intros w; simpl; [reflexivity|].
  destruct (handle unit (click_echo l false) w) as [[e|[]] w']; simpl; [reflexivity|].
  apply IH.
Qed.

Lemma prints_only (q : @Event ChangeCounts -> bool) (tr : list Event) :
  (forall ev, prints ev = true -> q ev = false) ->
  forallb prints tr = true -> existsb q tr = false.
Proof.
  intros Hq. induction tr as [|ev tr IH]; simpl; [reflexivity|].
  intros H. apply andb_true_iff in H as [H1 H2].
  rewrite (Hq ev H1), (IH H2). reflexivity.
Qed.

Lemma prints_not_reconciles (tr : list (@Event ChangeCounts)) :
  forallb prints tr = true -> existsb reconciles tr = false.
Proof. apply prints_only. intros [X op a]; destruct op; simpl; congruence. Qed.

Lemma prints_not_mutates (tr : list (@Event ChangeCounts)) :
  forallb prints tr = true -> existsb mutates tr = false.
Proof. apply prints_only. intros [X op a]; destruct op; simpl; congruence. Qed.

Lemma prints_not_user_answer (b : bool) (tr : list (@Event ChangeCounts)) :
  forallb prints tr = true -> existsb (user_answer b) tr = false.
Proof. apply prints_only. intros [X op a]; destruct op; simpl; congruence. Qed.

(** One call of the command under study: split on what the handler does. *)
Ltac answer :=
  match goal with
  | |- context [handle ?X ?op ?w] =>
      let e := fresh "e" in
      let x := fresh "x" in
      let w' := fresh "w" in
      let H := fresh "Hcall" in
      destruct (handle X op w) as [[e|x] w'] eqn:H; simpl in *
  end.

Ltac branch :=
  match goal with
  | |- context [if negb ?b then _ else _] => destruct b; simpl in *
  | |- context [if ?b then _ else _] => destruct b; simpl in *
  | x : unit |- _ => destruct x
  | |- context [match ?x with pair _ _ => _ end] => is_var x; destruct x; simpl in *
  end.

(** Claim C9. Whenever [jjm_plan] gets an answer [b] from
    [detected_changes()] and no collaborator raises, the command returns
    normally and the process exit status is 0, for [b = true] (changes were
    reported) as for [b = false]: the [Exit(2)] built on the changes branch
    is never raised, so the exit status does not tell the two apart. *)
Theorem plan_exit_status_ignores_changes (w : W) (b : bool) :
  let r := run jjm_plan w in
  existsb (changes_answer b) (trace r) = true ->
  forallb returned (trace r) = true ->
  outcome r = inr tt /\ exit_status (outcome r) = 0%Z.
Proof.
  unfold jjm_plan, check_auth, handle_plan_report, secho, echo, call. simpl.
  repeat first [answer | branch]; intros; (discriminate || (split; reflexivity)).
Qed.

(** The report loop of [handle_plan_report(obj, use_pager=False)], followed
    by the rest of the command. *)
Lemma run_echo_loop {B : Type} (ls : list string) (f : unit -> Prog B) (w : W) :
  exists (o : exn + unit) (w' : W) (tr : list Event),
    forallb prints tr = true
    /\ run (bind (for_each ls (fun line => Call (click_echo line false) Ret)) f) w
       = match o with
         | inl e => mkRun (inl e) w' tr
         | inr u =>
             mkRun (outcome (run (f u) w')) (final (run (f u) w'))
                   (tr ++ trace (run (f u) w'))
         end.
Proof.
  rewrite run_bind.
  pose proof (echo_loop_prints ls w) as Hp.
  destruct (run (for_each ls _) w) as [o w' tr]. simpl in *.
  exists o, w', tr. split; [assumption|]. destruct o; reflexivity.
Qed.

(** The same, one call at a time and without unfolding the rest of the
    command: for the long straight-line commands. *)
Ltac step :=
  match goal with
  | |- context [Cli.run W handle (Call ?op ?k) ?w] =>
      let e := fresh "e" in
      let x := fresh "x" in
      let w' := fresh "w" in
      let H := fresh "Hcall" in
      destruct (handle _ op w) as [[e|x] w'] eqn:H;
      [ rewrite (run_Call_raises op k w w' e H)
      | rewrite (run_Call_returns op k w w' x H) ];
      cbn -[Cli.run]
  | |- context [Cli.run W handle (Ret ?a) ?w] =>
      change (Cli.run W handle (Ret a) w)
        with (mkRun (ChangeCounts:=ChangeCounts) (inr a) w []);
      cbn -[Cli.run]
  | |- context [Cli.run W handle (@Raise _ ?A ?e) ?w] =>
      change (Cli.run W handle (@Raise ChangeCounts A e) w)
        with (mkRun (ChangeCounts:=ChangeCounts) (A:=A) (inl e) w []);
      cbn -[Cli.run]
  | |- context [if negb ?b then _ else _] => destruct b; cbn -[Cli.run]
  | |- context [if ?b then _ else _] => destruct b; cbn -[Cli.run]
  end.

Ltac settle :=
  simpl in *; repeat (split || intro);
  solve [reflexivity | discriminate | congruence | assumption].

Ltac notin :=
  split; [| intros [H|[H|[H|[]]]]; discriminate H].

(** The report loop inside a command: name its outcome and its trace. *)
Ltac loop :=
  match goal with
  | |- context [Cli.run W handle (bind (bind (for_each ?ls ?body) ?f) ?g) ?w] =>
      let o := fresh "o" in
      let wl := fresh "wl" in
      let trl := fresh "trl" in
      let Hp := fresh "Hprints" in
      let Hrun := fresh "Hrun" in
      rewrite (run_bind (bind (for_each ls body) f) g w);
      destruct (run_echo_loop ls f w) as (o & wl & trl & Hp & Hrun);
      rewrite Hrun; clear Hrun; destruct o as [?|[]]; simpl in *
  end.

(** Claim C8. In every command, each reconciliation call ([gather],
    [detected_changes], [plan_report], [apply_plan], [import_missing]) comes
    after a [check_authentication()] that returned [True]; and in [plan],
    [apply] and [import], when [check_authentication()] returns [False] no
    such call is made at all and, the error report being printed, the
    command raises [Exit(1)]: exit status 1, before gathering. *)
Theorem auth_gates_reconciliation (c : Command) (w : W) :
  let r := run (command c) w in
  preceded_by authenticated reconciles false (trace r) = true
  /\ (In c [Plan; Apply; Import] ->
      fst (handle bool check_authentication w) = inr false ->
      existsb reconciles (trace r) = false
      /\ (forallb returned (trace r) = true ->
          outcome r = inl (Exit 1) /\ exit_status (outcome r) = 1%Z)).
Proof.
  destruct c; [cbn -[Cli.run] | simpl ..].
  - (* login *)
    notin.
    unfold jjm_login, confirm, secho, echo, call. cbn -[Cli.run].
    repeat step; reflexivity.
  - (* check *)
    notin.
    unfold jjm_check, call. simpl. answer; reflexivity.
  - (* plan *)
    unfold jjm_plan, check_auth, handle_plan_report, secho, echo, call. simpl.
    repeat first [answer | branch]; settle.
  - (* apply *)
    unfold jjm_apply, check_auth, handle_plan_report, confirm, secho, echo, call. simpl.
    repeat first [answer | branch | loop]; try settle.
    all: (split; [apply preceded_by_seen | intros; discriminate]).
  - (* import *)
    unfold jjm_import, check_auth, secho, echo, call. simpl.
    repeat first [answer | branch]; settle.
Qed.

Lemma prints_not_changes_answer (b : bool) (tr : list (@Event ChangeCounts)) :
  forallb prints tr = true -> existsb (changes_answer b) tr = false.
Proof. apply prints_only. intros [X op a]; destruct op; simpl; congruence. Qed.

Ltac through_loop :=
  match goal with
  | Hp : forallb prints ?tr = true |- _ =>
      repeat rewrite ?existsb_app, ?preceded_by_app,
        ?(prints_not_mutates _ Hp), ?(prints_not_user_answer true _ Hp),
        ?(prints_not_user_answer false _ Hp), ?(preceded_by_absent _ _ _ _ (prints_not_mutates _ Hp));
      simpl in *
  end.

(** Claim C10. In [jjm_apply] every [apply_plan()] call comes after a
    [detected_changes()] that returned [True] and after the user answered
    the confirmation prompt with yes. When the first [detected_changes()]
    returns [False] the command returns without calling [apply_plan()];
    when the user answers no, [click.confirm] raises [Abort] and
    [apply_plan()] is not called either. *)
Theorem apply_needs_confirmation (w : W) :
  let r := run jjm_apply w in
  preceded_by (changes_answer true) mutates false (trace r) = true
  /\ preceded_by (user_answer true) mutates false (trace r) = true
  /\ (first_changes_answer (trace r) = Some false ->
      existsb mutates (trace r) = false
      /\ (forallb returned (trace r) = true -> outcome r = inr tt))
  /\ (existsb (user_answer false) (trace r) = true ->
      existsb mutates (trace r) = false /\ outcome r = inl Abort).
Proof.
  unfold jjm_apply, check_auth, handle_plan_report, confirm, secho, echo, call. simpl.
  repeat first [answer | branch | loop]; try settle.
  all: through_loop; try settle.
Qed.

End Runs.

(** A refused login on [apply]: nothing is gathered, exit status 1. *)
Lemma auth_gates_reconciliation_witness :
  existsb reconciles (trace (run _ (scripted bad_login) jjm_apply [])) = false
  /\ exit_status (outcome (run _ (scripted bad_login) jjm_apply [])) = 1%Z.
Proof.
  destruct (auth_gates_reconciliation _ (scripted bad_login) Apply []) as [_ H].
  destruct H as [Hquiet Hexit].
  - simpl. right. left. reflexivity.
  - reflexivity.
  - split; [exact Hquiet | apply Hexit; reflexivity].
Defined.

(** [plan] with pending changes and [plan] in sync both exit with 0. *)
Lemma plan_exit_status_ignores_changes_witness :
  exit_status (outcome (run _ (scripted pending_changes) jjm_plan [])) = 0%Z
  /\ exit_status (outcome (run _ (scripted in_sync) jjm_plan [])) = 0%Z.
Proof.
  split.
  - apply (plan_exit_status_ignores_changes _ (scripted pending_changes) [] true);
      reflexivity.
  - apply (plan_exit_status_ignores_changes _ (scripted in_sync) [] false);
      reflexivity.
Defined.

(** The operator declines: [Abort], and the server is never asked to apply. *)
Lemma apply_needs_confirmation_witness :
  existsb mutates (trace (run _ (scripted operator_declines) jjm_apply [])) = false
  /\ outcome (run _ (scripted operator_declines) jjm_apply []) = inl Abort.
Proof.
  apply (apply_needs_confirmation _ (scripted operator_declines) []).
  reflexivity.
Defined.

End CliFacts.

(** * Facts about the reconciliation engine *)
Module CoreFacts.
Import Core.
Local Open Scope list_scope.

(** ** The ordered mapping *)
Section OrderedMapFacts.

Context {V : Type}.
Implicit Types (m : list (JobName * V)) (k : JobName) (v : V).

Lemma om_mem_keys k m : om_mem k m = true <-> In k (om_keys m).
Proof.
  unfold om_mem. induction m as [|[k' v'] m IH]; simpl.
  - split; [discriminate | tauto].
  - destruct (String.eqb_spec k k') as [->|Hne].
    + split; auto.
    + rewrite IH. split; [auto | intros [H|H]; congruence].
Qed.

Lemma om_mem_false k m : om_mem k m = false <-> ~ In k (om_keys m).
Proof.
  rewrite <- om_mem_keys. destruct (om_mem k m); split; congruence.
Qed.

Lemma om_lookup_In k v m : om_lookup k m = Some v -> In (k, v) m.
Proof.
  induction m as [|[k' v'] m IH]; simpl; [discriminate|].
  destruct (String.eqb_spec k k') as [->|Hne].
  - intros [= ->]. now left.
  - auto.
Qed.

Lemma om_In_lookup k v m :
  NoDup (om_keys m) -> In (k, v) m -> om_lookup k m = Some v.
Proof.
  induction m as [|[k' v'] m IH]; simpl; [tauto|].
  intros Hnd [[= -> ->]|Hin].
  - now rewrite String.eqb_refl.
  - inversion Hnd as [|? ? Hnotin Hnd']; subst.
    destruct (String.eqb_spec k k') as [->|Hne]; [|auto].
    exfalso. apply Hnotin. change k' with (fst (k', v)). now apply in_map.
Qed.

Lemma om_keys_insert k v m :
  om_keys (om_insert k v m) = if om_mem k m then om_keys m else om_keys m ++ [k].
Proof.
  unfold om_mem. induction m as [|[k' v'] m IH]; simpl; [reflexivity|].
  destruct (String.eqb_spec k k') as [->|Hne]; simpl; [reflexivity|].
  rewrite IH. destruct (om_lookup k m); reflexivity.
Qed.

Lemma om_insert_fresh k v m :
  om_mem k m = false -> om_insert k v m = m ++ [(k, v)].
Proof.
  unfold om_mem. induction m as [|[k' v'] m IH]; simpl; [reflexivity|].
  destruct (String.eqb_spec k k') as [->|Hne]; [discriminate|].
  intros H. now rewrite IH.
Qed.

Lemma om_insert_In k v k' v' m :
  In (k', v') (om_insert k v m) -> (k', v') = (k, v) \/ In (k', v') m.
Proof.
  induction m as [|[k0 v0] m IH]; simpl.
  - intros [H|[]]; auto.
  - destruct (String.eqb k k0); simpl; intros [H|H]; auto.
    destruct (IH H); auto.
Qed.

Variable key : V -> JobName.

Lemma index_by_from (l : list V) (m0 : list (JobName * V)) :
  let m := fold_left (fun m x => om_insert (key x) x m) l m0 in
  (NoDup (om_keys m0) -> NoDup (om_keys m))
  /\ (forall k, In k (om_keys m) <-> In k (om_keys m0) \/ In k (map key l))
  /\ (forall k v, In (k, v) m -> In (k, v) m0 \/ (key v = k /\ In v l)).
Proof.
  revert m0. induction l as [|x l IH]; intros m0; simpl.
  - repeat split; auto; tauto.
  - destruct (IH (om_insert (key x) x m0)) as (Hnd & Hkeys & Hval).
    assert (Hk : forall k, In k (om_keys (om_insert (key x) x m0))
                           <-> In k (om_keys m0) \/ key x = k).
    { intros k. rewrite om_keys_insert.
      destruct (om_mem (key x) m0) eqn:Hm.
      - apply om_mem_keys in Hm. split; [auto | intros [H|<-]; auto].
      - rewrite in_app_iff. simpl. tauto. }
    repeat split.
    + intros Hnd0. apply Hnd. rewrite om_keys_insert.
      destruct (om_mem (key x) m0) eqn:Hm; [assumption|].
      apply om_mem_false in Hm.
      apply NoDup_app; [assumption | repeat constructor; simpl; tauto |].
      intros a Ha [Heq|[]]. subst a. contradiction.
    + intros H. apply Hkeys in H. rewrite Hk in H. tauto.
    + intros H. apply Hkeys. rewrite Hk. tauto.
    + intros k v H. apply Hval in H as [H|[H1 H2]]; [|auto].
      apply om_insert_In in H as [[= -> ->]|H]; auto.
Qed.

Lemma index_by_NoDup (l : list V) : NoDup (om_keys (index_by key l)).
Proof. apply (index_by_from l []). constructor. Qed.

Lemma index_by_keys (l : list V) k :
  In k (om_keys (index_by key l)) <-> In k (map key l).
Proof.
  destruct (index_by_from l []) as (_ & H & _). rewrite (H k). simpl. tauto.
Qed.

Lemma index_by_consistent (l : list V) k v :
  In (k, v) (index_by key l) -> key v = k /\ In v l.
Proof.
  destruct (index_by_from l []) as (_ & _ & H). intros Hin.
  destruct (H k v Hin) as [[]|]; assumption.
Qed.

Lemma index_by_values_keys (l : list V) :
  map key (om_values (index_by key l)) = om_keys (index_by key l).
Proof.
  unfold om_values, om_keys. rewrite map_map. apply map_ext_in.
  intros [k v] Hin. simpl. now apply index_by_consistent in Hin.
Qed.

(** With unique names the mapping lists the input in its own order. *)
Lemma index_by_unique (l : list V) :
  NoDup (map key l) -> index_by key l = map (fun x => (key x, x)) l.
Proof.
  unfold index_by.
  enough (H : forall m0,
             NoDup (om_keys m0 ++ map key l) ->
             fold_left (fun m x => om_insert (key x) x m) l m0
             = m0 ++ map (fun x => (key x, x)) l) by (intros; now apply (H [])).
  induction l as [|x l IH]; intros m0 Hnd; simpl.
  - now rewrite app_nil_r.
  - simpl in Hnd. rewrite om_insert_fresh.
    + rewrite IH.
      * now rewrite <- app_assoc.
      * unfold om_keys. rewrite map_app. simpl. rewrite <- app_assoc. exact Hnd.
    + apply om_mem_false. apply NoDup_remove_2 in Hnd.
      intros Hin. apply Hnd. apply in_or_app. now left.
Qed.

Lemma om_mem_index_by (l : list V) k :
  om_mem k (index_by key l) = existsb (fun x => String.eqb (key x) k) l.
Proof.
  apply eq_iff_eq_true. rewrite om_mem_keys, index_by_keys, existsb_exists, in_map_iff.
  split; intros (x & H1 & H2).
  - exists x. split; [assumption|]. subst k. apply String.eqb_refl.
  - exists x. apply String.eqb_eq in H2. auto.
Qed.

End OrderedMapFacts.

(** ** Counting in lists with unique names *)
Section Counting.

Context {A : Type}.
Variable f : A -> JobName.
Variable p : A -> bool.

Lemma filter_absent (n : JobName) (l : list A) :
  ~ In n (map f l) -> filter (fun x => p x && String.eqb (f x) n) l = [].
Proof.
  induction l as [|x l IH]; simpl; [reflexivity|].
  intros H. destruct (String.eqb_spec (f x) n) as [Heq|Hne]; [tauto|].
  rewrite andb_false_r. apply IH. tauto.
Qed.

Lemma existsb_absent (n : JobName) (l : list A) :
  ~ In n (map f l) -> existsb (fun x => p x && String.eqb (f x) n) l = false.
Proof.
  induction l as [|x l IH]; simpl; [reflexivity|].
  intros H. destruct (String.eqb_spec (f x) n) as [Heq|Hne]; [tauto|].
  rewrite andb_false_r. apply IH. tauto.
Qed.

Lemma count_unique (n : JobName) (l : list A) :
  NoDup (map f l) ->
  List.length (filter (fun x => p x && String.eqb (f x) n) l)
  = if existsb (fun x => p x && String.eqb (f x) n) l then 1 else 0.
Proof.
  induction l as [|x l IH]; simpl; [reflexivity|].
  intros Hnd. inversion Hnd as [|? ? Hnotin Hnd']; subst.
  destruct (p x && String.eqb (f x) n) eqn:Hx; simpl.
  - apply andb_true_iff in Hx as [_ Hx]. apply String.eqb_eq in Hx. subst n.
    now rewrite filter_absent.
  - auto.
Qed.

End Counting.

(** ** [collect] *)
Section Collect.

Context {A B : Type}.
Variable f : A -> Error + B.

Lemma collect_Forall2 (l : list A) (ys : list B) :
  collect f l = inr ys -> Forall2 (fun x y => f x = inr y) l ys.
Proof.
  revert ys. induction l as [|x l IH]; simpl; intros ys.
  - intros [= <-]. constructor.
  - destruct (f x) as [e|y] eqn:Hx; [discriminate|].
    destruct (collect f l) as [e|ys']; [discriminate|].
    intros [= <-]. constructor; auto.
Qed.

Lemma collect_total (l : list A) :
  (forall x, In x l -> exists y, f x = inr y) -> exists ys, collect f l = inr ys.
Proof.
  induction l as [|x l IH]; simpl; intros H.
  - now exists [].
  - destruct (H x (or_introl eq_refl)) as [y ->].
    destruct IH as [ys ->]; [auto|]. now exists (y :: ys).
Qed.

Lemma collect_fails (l : list A) (e : Error) :
  collect f l = inl e -> exists x, In x l /\ f x = inl e.
Proof.
  induction l as [|x l IH]; simpl; [discriminate|].
  destruct (f x) as [e'|y] eqn:Hx.
  - intros [= ->]. eauto.
  - destruct (collect f l) as [e'|ys]; [|discriminate].
    intros [= ->]. destruct IH as (x' & H1 & H2); eauto.
Qed.

Lemma collect_first_error (l : list A) (x : A) (e : Error) :
  In x l -> f x = inl e -> exists e', collect f l = inl e'.
Proof.
  induction l as [|x' l IH]; simpl; [tauto|].
  intros [->|Hin] Hx.
  - rewrite Hx. eauto.
  - destruct (f x'); [eauto|].
    destruct (IH Hin Hx) as [e' ->]. eauto.
Qed.

End Collect.

Lemma declared_In (n : JobName) (D : list JobDefinition) :
  declared n D = true <-> In n (map jd_name D).
Proof.
  unfold declared. rewrite existsb_exists, in_map_iff.
  split; intros (d & H1 & H2).
  - apply String.eqb_eq in H2. eauto.
  - exists d. subst n. split; [assumption | apply String.eqb_refl].
Qed.

Lemma present_In (n : JobName) (Obs : list RemoteJob) :
  present n Obs = true <-> In n (map rj_name Obs).
Proof.
  unfold present. rewrite existsb_exists, in_map_iff.
  split; intros (d & H1 & H2).
  - apply String.eqb_eq in H2. eauto.
  - exists d. subst n. split; [assumption | apply String.eqb_refl].
Qed.

Lemma count_for_app (k : ChangeKind) (n : JobName) (cs1 cs2 : list Change) :
  count_for k n (cs1 ++ cs2) = count_for k n cs1 + count_for k n cs2.
Proof. unfold count_for. now rewrite filter_app, length_app. Qed.

Lemma kind_eqb_eq (a b : ChangeKind) : kind_eqb a b = true <-> a = b.
Proof. destruct a, b; simpl; split; congruence. Qed.

Lemma filter_twice {A : Type} (p q : A -> bool) (l : list A) :
  filter p (filter q l) = filter (fun x => q x && p x) l.
Proof.
  induction l as [|x l IH]; simpl; [reflexivity|].
  destruct (q x); simpl; [destruct (p x)|]; now rewrite IH.
Qed.

Lemma existsb_on_name {A : Type} (f : A -> JobName) (q : JobName -> bool)
      (n : JobName) (l : list A) :
  existsb (fun x => q (f x) && String.eqb (f x) n) l
  = q n && existsb (fun x => String.eqb (f x) n) l.
Proof.
  induction l as [|x l IH]; simpl; [now rewrite andb_false_r|].
  rewrite IH. destruct (String.eqb_spec (f x) n) as [->|Hne].
  - destruct (q n); reflexivity.
  - now rewrite andb_false_r.
Qed.

Lemma existsb_named {A : Type} (f : A -> JobName) (n : JobName) (l : list A) :
  existsb (fun x => String.eqb (f x) n) l = true <-> In n (map f l).
Proof.
  rewrite existsb_exists, in_map_iff.
  split; intros (x & H1 & H2).
  - apply String.eqb_eq in H2. eauto.
  - exists x. subst n. split; [assumption | apply String.eqb_refl].
Qed.

Lemma existsb_index_values {V : Type} (key : V -> JobName) (n : JobName) (l : list V) :
  existsb (fun x => String.eqb (key x) n) (om_values (index_by key l))
  = existsb (fun x => String.eqb (key x) n) l.
Proof.
  apply eq_iff_eq_true.
  now rewrite !existsb_named, index_by_values_keys, index_by_keys.
Qed.

Lemma Forall2_In_r {A B : Type} (R : A -> B -> Prop) (l : list A) (l' : list B) (y : B) :
  Forall2 R l l' -> In y l' -> exists x, In x l /\ R x y.
Proof.
  induction 1 as [|x y' l l' HR _ IH]; simpl; [tauto|].
  intros [->|Hin]; [eauto|]. destruct (IH Hin) as (x' & H1 & H2); eauto.
Qed.

Lemma collect_ext {A B : Type} (f g : A -> Error + B) (l : list A) :
  (forall x, f x = g x) -> collect f l = collect g l.
Proof.
  intros H. induction l as [|x l IH]; simpl; [reflexivity|].
  now rewrite H, IH.
Qed.

Lemma filter_map_comm {A B : Type} (f : A -> B) (q : B -> bool) (l : list A) :
  filter q (map f l) = map f (filter (fun x => q (f x)) l).
Proof.
  induction l as [|x l IH]; simpl; [reflexivity|].
  destruct (q (f x)); simpl; now rewrite IH.
Qed.

Lemma index_values_unique {V : Type} (key : V -> JobName) (l : list V) :
  NoDup (map key l) -> om_values (index_by key l) = l.
Proof.
  intros H. rewrite (index_by_unique key l H). unfold om_values.
  rewrite map_map. simpl. apply map_id.
Qed.

(** ** The Change Detector *)
Section DetectorFacts.

Variable canonicalize : string -> option string.
Variable unmanaged_exempt : JobName -> bool.

Local Abbreviation detect := (Core.detect canonicalize unmanaged_exempt).
Local Abbreviation desired_change := (Core.desired_change canonicalize).
Local Abbreviation compare_change := (Core.compare_change canonicalize).
Local Abbreviation deletable := (Core.deletable unmanaged_exempt).

(** What one local definition turns into. *)
Lemma desired_change_inv (have : list (JobName * RemoteJob)) (d : JobDefinition) (c : Change) :
  desired_change have d = inr c ->
  name c = jd_name d
  /\ desired c = Some (canonicalXML d)
  /\ kind_eqb (kind c) Delete = false
  /\ kind_eqb (kind c) Create = negb (om_mem (jd_name d) have)
  /\ (kind c = Create -> observed c = None).
Proof.
  unfold Core.desired_change, om_mem, Core.compare_change.
  destruct (om_lookup (jd_name d) have) as [r|].
  - destruct (canonicalize (canonicalXML d)) as [want|]; [|discriminate].
    destruct (canonicalize (liveXML r)) as [hv|]; [|discriminate].
    intros [= <-]. simpl. destruct (String.eqb want hv); simpl; repeat split; discriminate.
  - intros [= <-]. simpl. repeat split; reflexivity.
Qed.

(** The plan is the changes of the local definitions, in the order of the
    desired mapping, followed by the deletions, in the order of the
    observed mapping. *)
Lemma detect_shape (D : list JobDefinition) (Obs : list RemoteJob) (plan : Plan) :
  detect D Obs = inr plan ->
  exists ups,
    Forall2 (fun d c => desired_change (index_by rj_name Obs) d = inr c)
            (om_values (index_by jd_name D)) ups
    /\ plan = make_plan
                (ups ++ map delete_change
                          (filter (deletable (index_by jd_name D))
                                  (om_values (index_by rj_name Obs)))).
Proof.
  unfold Core.detect.
  destruct (collect _ _) as [e|ups] eqn:Hc; [discriminate|].
  intros [= <-]. exists ups. split; [|reflexivity].
  now apply collect_Forall2.
Qed.

Lemma count_for_ups (have : list (JobName * RemoteJob)) (k : ChangeKind) (n : JobName)
      (ds : list JobDefinition) (ups : list Change) :
  Forall2 (fun d c => desired_change have d = inr c) ds ups ->
  count_for k n ups
  = match k with
    | Create =>
        List.length (filter (fun d => negb (om_mem (jd_name d) have)
                                      && String.eqb (jd_name d) n) ds)
    | Delete => 0
    | _ => count_for k n ups
    end.
Proof.
  destruct k; try reflexivity; unfold count_for.
  - induction 1 as [|d c ds ups Hdc _ IH]; simpl; [reflexivity|].
    apply desired_change_inv in Hdc as (-> & _ & _ & -> & _).
    destruct (negb (om_mem (jd_name d) have) && String.eqb (jd_name d) n); simpl; now rewrite IH.
  - induction 1 as [|d c ds ups Hdc _ IH]; simpl; [reflexivity|].
    apply desired_change_inv in Hdc as (_ & _ & -> & _). simpl. exact IH.
Qed.

Lemma count_for_deletes (k : ChangeKind) (n : JobName) (rs : list RemoteJob) :
  count_for k n (map delete_change rs)
  = match k with
    | Delete => List.length (filter (fun r => String.eqb (rj_name r) n) rs)
    | _ => 0
    end.
Proof.
  unfold count_for.
  induction rs as [|r rs IH]; simpl; [now destruct k|].
  destruct k; simpl; try exact IH.
  destruct (String.eqb (rj_name r) n); simpl; now rewrite IH.
Qed.

Lemma index_values_In {V : Type} (key : V -> JobName) (l : list V) (x : V) :
  In x (om_values (index_by key l)) -> In x l.
Proof.
  unfold om_values. rewrite in_map_iff. intros ([k v] & <- & Hin).
  now apply index_by_consistent in Hin.
Qed.

(** [detect] produces a plan exactly when canonicalization succeeds on
    both sides of every job that is declared and present; in particular
    when no job is on both sides. *)
Lemma detect_disjoint (D : list JobDefinition) (Obs : list RemoteJob) :
  (forall n, declared n D && present n Obs = false) ->
  exists plan, detect D Obs = inr plan.
Proof.
  intros Hdis. unfold Core.detect.
  destruct (collect_total (desired_change (index_by rj_name Obs)) (om_values (index_by jd_name D)))
    as [ups ->]; [|eauto].
  intros d Hd. unfold Core.desired_change.
  destruct (om_lookup (jd_name d) (index_by rj_name Obs)) as [r|] eqn:Hl; [|eauto].
  exfalso. specialize (Hdis (jd_name d)).
  assert (Hdecl : declared (jd_name d) D = true).
  { apply declared_In, in_map. now apply index_values_In in Hd. }
  assert (Hpres : present (jd_name d) Obs = true).
  { unfold present. rewrite <- om_mem_index_by. unfold om_mem. now rewrite Hl. }
  rewrite Hdecl, Hpres in Hdis. discriminate.
Qed.

(** Claim C1. In the plan [detect] produces there is exactly one [Create]
    for each job name declared locally and absent from the server, and none
    for any other name; exactly one [Delete] for each name present on the
    server, not declared locally and not exempt as unmanaged, and none for
    any other name. A [Create] carries the XML of a local definition of its
    job and no observed XML. When no name is on both sides [detect] does
    produce a plan. *)
Theorem detect_creates_and_deletes (D : list JobDefinition) (Obs : list RemoteJob) :
  (forall plan, detect D Obs = inr plan ->
     forall n,
       count_for Create n (changes plan)
       = (if declared n D && negb (present n Obs) then 1 else 0)
       /\ count_for Delete n (changes plan)
          = (if present n Obs && negb (declared n D) && negb (unmanaged_exempt n)
             then 1 else 0))
  /\ (forall plan c, detect D Obs = inr plan ->
        In c (changes plan) -> kind c = Create ->
        observed c = None
        /\ exists d, In d D /\ jd_name d = name c /\ desired c = Some (canonicalXML d))
  /\ ((forall n, declared n D && present n Obs = false) ->
      exists plan, detect D Obs = inr plan).
Proof.
  split; [|split; [|apply detect_disjoint]].
  - intros plan Hdet n. apply detect_shape in Hdet as (ups & Hups & ->). simpl.
    rewrite !count_for_app, !(count_for_ups _ _ _ _ _ Hups), !count_for_deletes. split.
    + rewrite Nat.add_0_r.
      rewrite (count_unique jd_name (fun d => negb (om_mem (jd_name d) (index_by rj_name Obs)))).
      * rewrite (existsb_on_name jd_name (fun k => negb (om_mem k (index_by rj_name Obs)))).
        rewrite existsb_index_values, om_mem_index_by.
        fold (declared n D). fold (present n Obs). now rewrite andb_comm.
      * rewrite index_by_values_keys. apply index_by_NoDup.
    + simpl. rewrite filter_twice.
      rewrite (count_unique rj_name (deletable (index_by jd_name D))).
      * unfold Core.deletable.
        rewrite (existsb_on_name rj_name
                   (fun k => negb (om_mem k (index_by jd_name D)) && negb (unmanaged_exempt k))).
        rewrite existsb_index_values, om_mem_index_by.
        fold (declared n D). fold (present n Obs).
        destruct (present n Obs), (declared n D), (unmanaged_exempt n); reflexivity.
      * rewrite index_by_values_keys. apply index_by_NoDup.
  - intros plan c Hdet Hin Hk. apply detect_shape in Hdet as (ups & Hups & ->).
    simpl in Hin. apply in_app_or in Hin as [Hin|Hin].
    + destruct (Forall2_In_r _ _ _ _ Hups Hin) as (d & Hd & Hdc).
      apply desired_change_inv in Hdc as (Hn & Hdes & _ & _ & Hobs).
      split; [auto|]. exists d. split; [now apply index_values_In in Hd | auto].
    + apply in_map_iff in Hin as (r & <- & _). discriminate.
Qed.

Lemma filter_none {A : Type} (p : A -> bool) (l : list A) :
  (forall x, In x l -> p x = false) -> filter p l = [].
Proof.
  induction l as [|x l IH]; simpl; intros H; [reflexivity|].
  rewrite (H x (or_introl eq_refl)). apply IH. auto.
Qed.

(** The remote job the detector pairs a local definition with. *)
Lemma paired_job (Obs : list RemoteJob) (n : JobName) :
  present n Obs = true ->
  exists r, om_lookup n (index_by rj_name Obs) = Some r /\ rj_name r = n /\ In r Obs.
Proof.
  intros Hp. unfold present in Hp. rewrite <- om_mem_index_by in Hp.
  unfold om_mem in Hp.
  destruct (om_lookup n (index_by rj_name Obs)) as [r|] eqn:Hl; [|discriminate].
  exists r. split; [reflexivity|].
  apply om_lookup_In, index_by_consistent in Hl. exact Hl.
Qed.

(** A job whose two sides normalize to the same text is a [Noop]. *)
Lemma desired_change_noop (Obs : list RemoteJob) (d : JobDefinition) :
  present (jd_name d) Obs = true ->
  (forall r, In r Obs -> rj_name r = jd_name d ->
     exists t, canonicalize (canonicalXML d) = Some t /\ canonicalize (liveXML r) = Some t) ->
  exists c, desired_change (index_by rj_name Obs) d = inr c /\ kind c = Noop.
Proof.
  intros Hp Hsame. destruct (paired_job Obs _ Hp) as (r & Hl & Hn & Hin).
  destruct (Hsame r Hin Hn) as (t & Hd & Hr).
  unfold Core.desired_change, Core.compare_change. rewrite Hl, Hd, Hr.
  eexists. split; [reflexivity|]. simpl. now rewrite String.eqb_refl.
Qed.

(** Claim C2. When the two sides agree (the same job names on both, and
    for every job the local and the remote XML normalize to the same text)
    [detect] produces a plan, every change of that plan is a [Noop], and
    [hasChanges] is false. *)
Theorem detect_in_sync_all_noop (D : list JobDefinition) (Obs : list RemoteJob) :
  (forall n, declared n D = present n Obs) ->
  (forall d r, In d D -> In r Obs -> rj_name r = jd_name d ->
     exists t, canonicalize (canonicalXML d) = Some t /\ canonicalize (liveXML r) = Some t) ->
  exists plan,
    detect D Obs = inr plan
    /\ Forall (fun c => kind c = Noop) (changes plan)
    /\ hasChanges plan = false.
Proof.
  intros Hnames Hsame.
  assert (Hnoop : forall d, In d (om_values (index_by jd_name D)) ->
            exists c, desired_change (index_by rj_name Obs) d = inr c /\ kind c = Noop).
  { intros d Hd. apply index_values_In in Hd. apply desired_change_noop.
    - rewrite <- Hnames. apply declared_In. now apply in_map.
    - intros r Hr Hn. now apply Hsame. }
  destruct (collect_total (desired_change (index_by rj_name Obs))
              (om_values (index_by jd_name D))) as [ups Hups].
  { intros d Hd. destruct (Hnoop d Hd) as (c & Hc & _). eauto. }
  assert (Hdel : filter (deletable (index_by jd_name D)) (om_values (index_by rj_name Obs)) = []).
  { apply filter_none. intros r Hr. apply index_values_In in Hr.
    unfold Core.deletable. rewrite om_mem_index_by. fold (declared (rj_name r) D).
    rewrite Hnames. unfold present.
    replace (existsb _ Obs) with true; [reflexivity|].
    symmetry. apply existsb_exists. exists r. split; [assumption | apply String.eqb_refl]. }
  assert (Hall : Forall (fun c => kind c = Noop) ups).
  { apply collect_Forall2 in Hups. apply Forall_forall. intros c Hc.
    destruct (Forall2_In_r _ _ _ _ Hups Hc) as (d & Hd & Hdc).
    destruct (Hnoop d Hd) as (c' & Hc' & Hk). congruence. }
  exists (make_plan ups). unfold Core.detect. rewrite Hups, Hdel. simpl. rewrite app_nil_r.
  split; [reflexivity|]. split; [assumption|].
  clear - Hall. induction Hall as [|c cs Hc _ IH]; simpl; [reflexivity|].
  now rewrite Hc, IH.
Qed.

(** Counting the changes of one kind for one name among those of the
    local definitions comes down to counting the definitions. *)
Definition yields (have : list (JobName * RemoteJob)) (k : ChangeKind) (d : JobDefinition)
  : bool :=
  match desired_change have d with
  | inr c => kind_eqb (kind c) k
  | inl _ => false
  end.

Lemma count_for_yields (have : list (JobName * RemoteJob)) (k : ChangeKind) (n : JobName)
      (ds : list JobDefinition) (ups : list Change) :
  Forall2 (fun d c => desired_change have d = inr c) ds ups ->
  count_for k n ups
  = List.length (filter (fun d => yields have k d && String.eqb (jd_name d) n) ds).
Proof.
  unfold count_for, yields.
  induction 1 as [|d c ds ups Hdc _ IH]; simpl; [reflexivity|].
  rewrite Hdc. apply desired_change_inv in Hdc as (-> & _).
  destruct (kind_eqb (kind c) k && String.eqb (jd_name d) n); simpl; now rewrite IH.
Qed.

(** Claim C3. For a job name that is declared locally and present on the
    server, when the local and the remote XML normalize to the same
    canonical text (they differ in formatting only, as far as the external
    canonicalization sees), the plan holds exactly one [Noop] for that job
    and no [Update]. *)
Theorem detect_formatting_only_is_noop
        (D : list JobDefinition) (Obs : list RemoteJob) (plan : Plan) (n : JobName) :
  declared n D = true ->
  present n Obs = true ->
  (forall d r, In d D -> In r Obs -> jd_name d = n -> rj_name r = n ->
     exists t, canonicalize (canonicalXML d) = Some t /\ canonicalize (liveXML r) = Some t) ->
  detect D Obs = inr plan ->
  count_for Noop n (changes plan) = 1 /\ count_for Update n (changes plan) = 0.
Proof.
  intros Hd Hp Hsame Hdet.
  apply detect_shape in Hdet as (ups & Hups & ->). simpl.
  rewrite !count_for_app, !count_for_deletes, !Nat.add_0_r.
  rewrite !(count_for_yields _ _ _ _ _ Hups).
  assert (Hnd : NoDup (map jd_name (om_values (index_by jd_name D)))).
  { rewrite index_by_values_keys. apply index_by_NoDup. }
  rewrite !(count_unique jd_name _ n _ Hnd).
  assert (Hkind : forall d, In d (om_values (index_by jd_name D)) -> jd_name d = n ->
            yields (index_by rj_name Obs) Noop d = true
            /\ yields (index_by rj_name Obs) Update d = false).
  { intros d Hin Hn. apply index_values_In in Hin.
    destruct (desired_change_noop Obs d) as (c & Hc & Hk).
    - now rewrite Hn.
    - intros r Hr Hrn. apply Hsame; congruence.
    - unfold yields. rewrite Hc, Hk. split; reflexivity. }
  split.
  - replace (existsb _ _) with true; [reflexivity|]. symmetry.
    apply declared_In in Hd. rewrite <- index_by_keys, <- index_by_values_keys in Hd.
    apply in_map_iff in Hd as (d & Hn & Hin).
    apply existsb_exists. exists d. split; [assumption|].
    destruct (Hkind d Hin Hn) as [-> _]. subst n. apply String.eqb_refl.
  - replace (existsb _ _) with false; [reflexivity|]. symmetry.
    apply not_true_is_false. intros H. apply existsb_exists in H as (d & Hin & H).
    apply andb_true_iff in H as [Hy Hn]. apply String.eqb_eq in Hn.
    destruct (Hkind d Hin Hn) as [_ Hu]. congruence.
Qed.

(** Claim C4. [detect] is a function of its inputs: two runs on the same
    desired and observed sequences, with a canonicalization that answers
    the same on every text and the same exemption flags, give the same
    result (the same plan, change for change and diff line for diff line,
    or the same error). With unique names the plan lists one change per
    local definition in the order of the desired sequence, none of them a
    [Delete], and after them the [Delete]s in the order of the observed
    sequence. *)
Theorem detect_deterministic_order :
  (forall (canonicalize' : string -> option string) (unmanaged_exempt' : JobName -> bool)
          (D : list JobDefinition) (Obs : list RemoteJob),
      (forall xml, canonicalize xml = canonicalize' xml) ->
      (forall n, unmanaged_exempt n = unmanaged_exempt' n) ->
      detect D Obs = Core.detect canonicalize' unmanaged_exempt' D Obs)
  /\ (forall (D : list JobDefinition) (Obs : list RemoteJob) (plan : Plan),
        NoDup (map jd_name D) -> NoDup (map rj_name Obs) ->
        detect D Obs = inr plan ->
        exists ups dels,
          changes plan = ups ++ dels
          /\ map name ups = map jd_name D
          /\ Forall (fun c => kind c <> Delete) ups
          /\ map name dels
             = filter (fun n => negb (declared n D) && negb (unmanaged_exempt n))
                      (map rj_name Obs)
          /\ Forall (fun c => kind c = Delete) dels).
Proof.
  split.
  - intros can' ex' D Obs Hcan Hex. unfold Core.detect.
    rewrite (collect_ext (desired_change (index_by rj_name Obs))
                         (Core.desired_change can' (index_by rj_name Obs))).
    + destruct (collect _ _); [reflexivity|].
      rewrite (filter_ext (deletable (index_by jd_name D))
                          (Core.deletable ex' (index_by jd_name D))); [reflexivity|]. intros r. unfold Core.deletable. now rewrite Hex.
    + intros d. unfold Core.desired_change, Core.compare_change.
      destruct (om_lookup _ _); [|reflexivity]. now rewrite !Hcan.
  - intros D Obs plan HD HO Hdet.
    apply detect_shape in Hdet as (ups & Hups & ->).
    rewrite (index_values_unique jd_name D HD) in Hups.
    rewrite (index_values_unique rj_name Obs HO).
    exists ups, (map delete_change (filter (deletable (index_by jd_name D)) Obs)).
    split; [reflexivity|]. split; [|split; [|split]].
    + clear - Hups. induction Hups as [|d c ds ups Hdc _ IH]; simpl; [reflexivity|].
      apply desired_change_inv in Hdc as (-> & _). now rewrite IH.
    + clear - Hups. induction Hups as [|d c ds ups Hdc _ IH]; constructor; [|assumption].
      apply desired_change_inv in Hdc as (_ & _ & Hk & _).
      intros Heq. rewrite Heq in Hk. discriminate.
    + rewrite map_map. simpl. rewrite filter_map_comm. f_equal.
      apply filter_ext. intros r. unfold Core.deletable.
      now rewrite om_mem_index_by.
    + apply Forall_forall. intros c Hc. apply in_map_iff in Hc as (r & <- & _). reflexivity.
Qed.

End DetectorFacts.

End CoreFacts.

(** * More facts about the command line front end *)
Module CliMore.
Import Cli.
Local Open Scope list_scope.

(** ** More ways to read a trace *)
Section Reading.

Context {ChangeCounts : Type}.

(** A call that changes the stored credentials: in memory
    ([jconf.username, jconf.password = ...]) or in the user's file
    ([update_user_conf_auth]). *)
Definition sets_auth (ev : @Event ChangeCounts) : bool :=
  match ev with
  | Called op _ => match op with config_set_auth _ _ => true | _ => false end
  end.

Definition saves_auth (ev : @Event ChangeCounts) : bool :=
  match ev with
  | Called op _ =>
      match op with config_update_user_conf_auth _ _ => true | _ => false end
  end.

(** A call made on the manager after [gather()]. *)
Definition uses_gathered (ev : @Event ChangeCounts) : bool :=
  match ev with
  | Called op _ =>
      match op with
      | detected_changes | plan_report | apply_plan | import_missing => true
      | _ => false
      end
  end.

(** [check_authentication()] returned [False]. *)
Definition refused (ev : @Event ChangeCounts) : bool :=
  match ev with
  | Called op a =>
      match op with check_authentication => answered false op a | _ => false end
  end.

(** A yes/no question was put to the user. *)
Definition asks_yes_no (ev : @Event ChangeCounts) : bool :=
  match ev with
  | Called op _ => match op with click_ask_yes_no _ => true | _ => false end
  end.



End Reading.

(** A handler that answers like [h] but has the credentials [u], [p]
    already configured. *)
Definition with_credentials (u p : string)
    (h : forall X : Type, @Op nat X -> list string -> (exn + X) * list string)
    (X : Type) (op : @Op nat X) (term : list string) : (exn + X) * list string :=
  match op in Op X return (exn + X) * list string -> (exn + X) * list string with
  | config_username => fun _ => (inr u, term)
  | config_password => fun _ => (inr p, term)
  | _ => fun answer => answer
  end (h X op term).

(** The server cannot be reached while gathering. *)
Definition server_down : Scenario :=
  {| login_ok := true; fetch_error := Some (Uncaught "RemoteError"); changed := true;
     report := ["update jobA"]; says_yes := true |}.

Section MoreRuns.

Context {ChangeCounts : Type}.
Variable W : Type.
Variable handle : forall X : Type, @Op ChangeCounts X -> W -> (exn + X) * W.

Local Abbreviation run := (Cli.run W handle).

(** One call of the command under study at a time: split on what the
    handler does with it, leaving the rest of the command folded. *)
Ltac step :=
  match goal with
  | |- context [Cli.run W handle (Call ?op ?k) ?w] =>
      let e := fresh "e" in
      let x := fresh "x" in
      let w' := fresh "w" in
      let H := fresh "Hcall" in
      destruct (handle _ op w) as [[e|x] w'] eqn:H;
      [ rewrite (CliFacts.run_Call_raises W handle op k w w' e H)
      | rewrite (CliFacts.run_Call_returns W handle op k w w' x H) ];
      cbn -[Cli.run]
  | |- context [Cli.run W handle (Ret ?a) ?w] =>
      change (Cli.run W handle (Ret a) w)
        with (mkRun (ChangeCounts:=ChangeCounts) (inr a) w []);
      cbn -[Cli.run]
  | |- context [Cli.run W handle (@Raise _ ?A ?e) ?w] =>
      change (Cli.run W handle (@Raise ChangeCounts A e) w)
        with (mkRun (ChangeCounts:=ChangeCounts) (A:=A) (inl e) w []);
      cbn -[Cli.run]
  | |- context [if negb ?b then _ else _] => destruct b; cbn -[Cli.run]
  | |- context [if ?b then _ else _] => destruct b; cbn -[Cli.run]
  end.

(** A call whose answer is known. *)
Ltac known H :=
  rewrite (CliFacts.run_Call_returns W handle _ _ _ _ _ H)
  || rewrite (CliFacts.run_Call_raises W handle _ _ _ _ _ H);
  cbn -[Cli.run].

Ltac settle :=
  cbn -[Cli.run] in *; repeat (split || intro);
  solve [reflexivity | discriminate | congruence | assumption].

(** Property X1. Only [apply] changes jobs on the server: no other sub-command ever
    calls [apply_plan()]. *)
Theorem only_apply_mutates (c : Command) (w : W) :
  c <> Apply -> existsb mutates (trace (run (command c) w)) = false.
Proof.
  destruct c; intros Hc; try congruence; cbn -[Cli.run].
  - unfold jjm_login, confirm, secho, echo, call. cbn -[Cli.run].
    repeat step; reflexivity.
  - unfold jjm_check, call. cbn -[Cli.run]. repeat step; reflexivity.
  - unfold jjm_plan, check_auth, handle_plan_report, secho, echo, call. cbn -[Cli.run].
    repeat step; reflexivity.
  - unfold jjm_import, check_auth, secho, echo, call. cbn -[Cli.run].
    repeat step; reflexivity.
Qed.

(** Property X2. In [plan], [apply] and [import], an exception raised by
    [gather()] ends the command there: the exception is what the command
    raises, the world is left as [gather()] left it, and none of
    [detected_changes], [plan_report], [apply_plan], [import_missing] is
    called on the half-gathered state. *)
Theorem gather_failure_is_fatal (c : Command) (w w1 w2 : W) (e : exn) :
  In c [Plan; Apply; Import] ->
  handle bool check_authentication w = (inr true, w1) ->
  handle unit gather w1 = (inl e, w2) ->
  outcome (run (command c) w) = inl e
  /\ final (run (command c) w) = w2
  /\ existsb uses_gathered (trace (run (command c) w)) = false.
Proof.
  intros Hc Hauth Hgather.
  destruct Hc as [<-|[<-|[<-|[]]]]; cbn -[Cli.run].
  - unfold jjm_plan, check_auth, call. cbn -[Cli.run].
    known Hauth. known Hgather. auto.
  - unfold jjm_apply, check_auth, call. cbn -[Cli.run].
    known Hauth. known Hgather. auto.
  - unfold jjm_import, check_auth, call. cbn -[Cli.run].
    known Hauth. known Hgather. auto.
Qed.

(** Property X3. [login] writes the credentials to the user's
    configuration file only after [check_authentication()] returned [True]
    for them. When it returns [False] nothing is written and, the message
    being printed, the command raises [Exit(2)]: exit status 2. *)
Theorem login_saves_only_verified (w : W) :
  preceded_by authenticated saves_auth false (trace (run jjm_login w)) = true
  /\ (existsb refused (trace (run jjm_login w)) = true ->
      existsb saves_auth (trace (run jjm_login w)) = false
      /\ (forallb returned (trace (run jjm_login w)) = true ->
          outcome (run jjm_login w) = inl (Exit 2)
          /\ exit_status (outcome (run jjm_login w)) = 2%Z)).
Proof.
  unfold jjm_login, confirm, secho, echo, call. cbn -[Cli.run].
  repeat step; settle.
Qed.

(** Property X4. When a username and a password are already configured,
    [login] touches the credentials (in memory or on file) only after the
    user said yes to "overwrite?"; on a no [click.confirm] raises [Abort]
    and the credentials stay as they were. When one of the two is missing
    no yes/no question is asked at all. *)
Theorem login_overwrite_needs_consent (w w1 w2 w3 : W) (url u p : string) :
  handle string config_url w = (inr url, w1) ->
  handle string config_username w1 = (inr u, w2) ->
  handle string config_password w2 = (inr p, w3) ->
  (truthy u && truthy p = true ->
     preceded_by (user_answer true) sets_auth false (trace (run jjm_login w)) = true
     /\ preceded_by (user_answer true) saves_auth false (trace (run jjm_login w)) = true
     /\ (existsb (user_answer false) (trace (run jjm_login w)) = true ->
         outcome (run jjm_login w) = inl Abort
         /\ existsb sets_auth (trace (run jjm_login w)) = false
         /\ existsb saves_auth (trace (run jjm_login w)) = false))
  /\ (truthy u && truthy p = false ->
      existsb asks_yes_no (trace (run jjm_login w)) = false).
Proof.
  intros Hurl Huser Hpass.
  unfold jjm_login, confirm, secho, echo, call. cbn -[Cli.run truthy andb].
  rewrite (CliFacts.run_Call_returns W handle _ _ _ _ _ Hurl). cbn -[Cli.run truthy andb].
  rewrite (CliFacts.run_Call_returns W handle _ _ _ _ _ Huser). cbn -[Cli.run truthy andb].
  rewrite (CliFacts.run_Call_returns W handle _ _ _ _ _ Hpass). cbn -[Cli.run truthy andb].
  split; intros Hb; rewrite Hb; cbn -[Cli.run].
  - repeat step; settle.
  - repeat step; reflexivity.
Qed.



End MoreRuns.

Lemma only_apply_mutates_witness :
  existsb mutates (trace (run _ (scripted pending_changes) (command Import) [])) = false.
Proof.
  apply (only_apply_mutates _ (scripted pending_changes) Import []). discriminate.
Defined.

Lemma gather_failure_is_fatal_witness :
  outcome (run _ (scripted server_down) (command Apply) []) = inl (Uncaught "RemoteError")
  /\ final (run _ (scripted server_down) (command Apply) []) = []
  /\ existsb uses_gathered (trace (run _ (scripted server_down) (command Apply) [])) = false.
Proof.
  apply (gather_failure_is_fatal _ (scripted server_down) Apply [] [] []).
  - simpl. auto.
  - reflexivity.
  - reflexivity.
Defined.

Lemma login_saves_only_verified_witness :
  existsb saves_auth (trace (run _ (scripted bad_login) jjm_login [])) = false
  /\ exit_status (outcome (run _ (scripted bad_login) jjm_login [])) = 2%Z.
Proof.
  destruct (login_saves_only_verified _ (scripted bad_login) []) as [_ H].
  destruct H as [Hnone Hexit]; [reflexivity|].
  split; [exact Hnone | apply Hexit; reflexivity].
Defined.

Lemma login_overwrite_needs_consent_witness :
  outcome (run _ (with_credentials "ci" "token" (scripted operator_declines)) jjm_login [])
  = inl Abort
  /\ existsb saves_auth
       (trace (run _ (with_credentials "ci" "token" (scripted operator_declines)) jjm_login []))
     = false.
Proof.
  destruct (login_overwrite_needs_consent _
              (with_credentials "ci" "token" (scripted operator_declines))
              [] [] [] [] "https://jenkins.example/" "ci" "token"
              eq_refl eq_refl eq_refl) as [H _].
  destruct (H eq_refl) as (_ & _ & Hno).
  destruct (Hno eq_refl) as (Habort & _ & Hsave).
  split; assumption.
Defined.



End CliMore.
